(** * rng_quantique: the rejection-sampling range generator and its CLI

    A shallow embedding of [rng_quantique.py].  Python integers are
    unbounded and are modelled by [Z].  The circuit simulator, the circuit
    renderer and the plotting library are external collaborators: they are
    gathered in the [Backend] interface and every call to them is recorded
    in the trace of a run. *)

From Stdlib Require Import String ZArith List Bool Lia.
Import ListNotations.
Local Open Scope Z_scope.

(** ** Integer helpers *)

(** Python's [int.bit_length()]: the number of binary digits of [abs n],
    and [0] for [n = 0]. *)
Definition bit_length (n : Z) : Z :=
  match n with
  | Z0 => 0
  | Zpos p => Zpos (Pos.size p)
  | Zneg p => Zpos (Pos.size p)
  end.

(** One measurement record of the simulator ([result.get_memory()[0]]): a
    string over the characters 0 and 1, one per measured qubit, most
    significant first.  It is represented by the list of its bits. *)
Definition measurement := list bool.

(** [int(measurement, 2)]. *)
Definition int2 (m : measurement) : Z :=
  fold_left (fun acc b => 2 * acc + Z.b2z b) m 0.

(** Lines 30 and 31 of [generator_quantum_number]. *)
Definition range_size (min_val max_val : Z) : Z := max_val - min_val + 1.

Definition num_qubits (min_val max_val : Z) : Z :=
  bit_length (range_size min_val max_val).

(** The bits of a non-negative number on [w] digits, most significant
    first; used to script a bit source from numbers. *)
Fixpoint bits_of (w : nat) (v : Z) : measurement :=
  match w with
  | O => []
  | S w' => Z.testbit v (Z.of_nat w') :: bits_of w' v
  end.

(** ** Exceptions, console messages and events *)

(** An instance of a subclass of Python's [Exception]: its class name and
    its message. *)
Inductive exn : Type := Exn (cls msg : string).

(** The lines the program prints, one constructor per [print] call of the
    source, carrying the values interpolated in the text. *)
Inductive message : Type :=
| MsgLoadingImage (nb_qubits : Z)                     (* line 22 *)
| MsgImageSaved (nb_qubits : Z)                       (* line 25 *)
| MsgBenchmarking (iterations min_val max_val : Z)    (* line 59 *)
| MsgHistogramSaved (iterations : Z)                  (* line 77 *)
| MsgStarting                                         (* line 93 *)
| MsgRangeError                                       (* line 96 *)
| MsgGenerating (min_val max_val : Z)                 (* line 106 *)
| MsgGenerated (random_number : Z)                    (* line 108 *)
| MsgGenerationError (e : exn).                       (* line 110 *)

(** What a run does to the outside world, in order. *)
Inductive event : Type :=
| MakeDirs                                            (* line 10 *)
| Print (m : message)
| SimulatorRun (num_qubits : Z)                       (* lines 34 to 47 *)
| CircuitDraw (nb_qubits : Z)                         (* lines 23 and 24 *)
| HistogramSave (dataset : list Z) (nb_bins iterations : Z). (* lines 65 to 76 *)

(** ** The external collaborators *)

(** [sim_run k s] builds a circuit of [k] qubits, applies a Hadamard gate to
    each, measures all of them in one shot and reads the memory back: it
    yields the measurement record, or the exception raised on the way, and
    the next state of the simulator.  [qc_draw] is the construction and the
    rendering of the circuit diagram, [plt_savefig] the plotting of the
    histogram; [None] stands for normal completion. *)
Class Backend : Type := {
  Sim : Type;
  sim_run : Z -> Sim -> (exn + measurement) * Sim;
  qc_draw : Z -> option exn;
  plt_savefig : list Z -> Z -> Z -> option exn
}.

(** ** Runs: state, trace and control *)

Inductive outcome (A : Type) : Type :=
| Ret (a : A)       (* normal completion *)
| Raise (e : exn)   (* an exception propagates *)
| Exit (code : Z)   (* [exit(code)] was called *)
| OutOfFuel.        (* the recursion budget given to the model ran out *)

Arguments Ret {A} a.
Arguments Raise {A} e.
Arguments Exit {A} code.
Arguments OutOfFuel {A}.

Section Program.

Context {B : Backend}.

(** The state a run threads: the simulator and whether the image directory
    exists. *)
Record World : Type := { sim : Sim; img_dir : bool }.

Record run (A : Type) : Type :=
  { res : outcome A; final : World; trace : list event }.

Arguments res {A} r.
Arguments final {A} r.
Arguments trace {A} r.

Definition M (A : Type) : Type := World -> run A.

Definition ret {A} (a : A) : M A :=
  fun w => {| res := Ret a; final := w; trace := [] |}.

Definition bind {A C} (m : M A) (k : A -> M C) : M C :=
  fun w =>
    let r := m w in
    match res r with
    | Ret a =>
        let r' := k a (final r) in
        {| res := res r'; final := final r'; trace := trace r ++ trace r' |}
    | Raise e => {| res := Raise e; final := final r; trace := trace r |}
    | Exit c => {| res := Exit c; final := final r; trace := trace r |}
    | OutOfFuel => {| res := OutOfFuel; final := final r; trace := trace r |}
    end.

Notation "x <- m ;; k" := (bind m (fun x => k))
  (at level 61, m at next level, right associativity).
Notation "m ;; k" := (bind m (fun _ => k))
  (at level 61, right associativity).

Definition emit (ev : event) : M unit :=
  fun w => {| res := Ret tt; final := w; trace := [ev] |}.

Definition print (m : message) : M unit := emit (Print m).

Definition raise {A} (e : exn) : M A :=
  fun w => {| res := Raise e; final := w; trace := [] |}.

(** The builtin [exit]. *)
Definition exit {A} (code : Z) : M A :=
  fun w => {| res := Exit code; final := w; trace := [] |}.

Definition out_of_fuel {A} : M A :=
  fun w => {| res := OutOfFuel; final := w; trace := [] |}.

(** [try: body  except Exception as e: handler e]. *)
Definition try_except {A} (body : M A) (handler : exn -> M A) : M A :=
  fun w =>
    let r := body w in
    match res r with
    | Raise e =>
        let r' := handler e (final r) in
        {| res := res r'; final := final r'; trace := trace r ++ trace r' |}
    | _ => r
    end.

(** Lift a call that either completes or raises. *)
Definition completes (o : option exn) : M unit :=
  match o with
  | None => ret tt
  | Some e => raise e
  end.

(** Lines 34 to 47: one shot of the simulator on [k] qubits. *)
Definition simulate (k : Z) : M measurement :=
  fun w =>
    let (o, s') := sim_run k (sim w) in
    {| res := match o with inl e => Raise e | inr m => Ret m end;
       final := {| sim := s'; img_dir := img_dir w |};
       trace := [SimulatorRun k] |}.

(** ** The functions of the source *)

(** Lines 9 and 10, run when the module is loaded. *)
Definition module_init : M unit :=
  fun w =>
    if img_dir w then ret tt w
    else {| res := Ret tt;
            final := {| sim := sim w; img_dir := true |};
            trace := [MakeDirs] |}.

Definition draw_and_save (nb_qubits : Z) : M unit :=
  print (MsgLoadingImage nb_qubits) ;;
  (emit (CircuitDraw nb_qubits) ;; completes (qc_draw nb_qubits)) ;;
  print (MsgImageSaved nb_qubits).

(** The recursion of the source has no bound; [fuel] bounds the depth of
    the calls the model follows. *)
Fixpoint generator_quantum_number (fuel : nat) (min_val max_val : Z)
  : M Z :=
  match fuel with
  | O => out_of_fuel
  | S fuel' =>
      let range_size := range_size min_val max_val in
      let num_qubits := num_qubits min_val max_val in
      measurement <- simulate num_qubits ;;
      let decimal_number := int2 measurement in
      if decimal_number >=? range_size
      then generator_quantum_number fuel' min_val max_val
      else ret (min_val + decimal_number)
  end.

(** The loop of lines 61 to 63, over [range(iterations)]. *)
Fixpoint benchmark_loop (fuel : nat) (min_val max_val : Z) (n : nat)
  (dataset : list Z) : M (list Z) :=
  match n with
  | O => ret dataset
  | S n' =>
      random_number <- generator_quantum_number fuel min_val max_val ;;
      benchmark_loop fuel min_val max_val n' (dataset ++ [random_number])
  end.

Definition benchmark (fuel : nat) (min_val max_val iterations : Z)
  : M unit :=
  print (MsgBenchmarking iterations min_val max_val) ;;
  dataset <- benchmark_loop fuel min_val max_val (Z.to_nat iterations) [] ;;
  let nb_bins := max_val - min_val + 1 in
  (emit (HistogramSave dataset nb_bins iterations) ;;
   completes (plt_savefig dataset nb_bins iterations)) ;;
  print (MsgHistogramSaved iterations).

(** The parsed command line. *)
Record args : Type := {
  arg_min : Z;
  arg_max : Z;
  arg_image : bool;
  arg_qubits : Z;
  arg_benchmark : bool;
  arg_iterations : Z
}.

(** Lines 105 to 110. *)
Definition single_number (fuel : nat) (a : args) : M unit :=
  try_except
    (print (MsgGenerating (arg_min a) (arg_max a)) ;;
     random_number <-
       generator_quantum_number fuel (arg_min a) (arg_max a) ;;
     print (MsgGenerated random_number))
    (fun e => print (MsgGenerationError e)).

(** Lines 93 to 110. *)
Definition main (fuel : nat) (a : args) : M unit :=
  print MsgStarting ;;
  (if arg_min a >=? arg_max a
   then print MsgRangeError ;; exit 1
   else ret tt) ;;
  (if arg_image a then draw_and_save (arg_qubits a) else ret tt) ;;
  if arg_benchmark a
  then benchmark fuel (arg_min a) (arg_max a) (arg_iterations a)
  else single_number fuel a.

Definition program (fuel : nat) (a : args) : M unit :=
  module_init ;; main fuel a.

(** The status the process ends with: [0] at the end of the script, the
    argument of [exit], [1] for an exception nobody caught; nothing when the
    model stopped following the run. *)
Definition exit_status {A} (o : outcome A) : option Z :=
  match o with
  | Ret _ => Some 0
  | Raise _ => Some 1
  | Exit c => Some c
  | OutOfFuel => None
  end.

End Program.

Arguments res {B A} r.
Arguments final {B A} r.
Arguments trace {B A} r.
Arguments Build_run {B A} res final trace.

(** ** Observations on traces and bit sources *)

(** Sampling, rendering and plotting are the work of the program; console
    lines and the creation of the image directory are not. *)
Definition is_work (ev : event) : bool :=
  match ev with
  | SimulatorRun _ | CircuitDraw _ | HistogramSave _ _ _ => true
  | MakeDirs | Print _ => false
  end.

Definition is_simulator_run (ev : event) : bool :=
  match ev with
  | SimulatorRun _ => true
  | _ => false
  end.

(** The number of calls the bit source received. *)
Definition bit_source_calls (tr : list event) : nat :=
  length (filter is_simulator_run tr).

(** A generation path has run when its opening line was printed. *)
Definition benchmark_ran (tr : list event) : bool :=
  existsb (fun ev => match ev with
                     | Print (MsgBenchmarking _ _ _) => true
                     | _ => false
                     end) tr.

Definition single_ran (tr : list event) : bool :=
  existsb (fun ev => match ev with
                     | Print (MsgGenerating _ _) => true
                     | _ => false
                     end) tr.

(** What the next [n] calls of width [k] to the bit source answer, and the
    state they leave. *)
Fixpoint transcript {B : Backend} (k : Z) (n : nat) (s : Sim)
  : list (exn + measurement) * Sim :=
  match n with
  | O => ([], s)
  | S n' =>
      let (o, s') := sim_run k s in
      let (l, s'') := transcript k n' s' in
      (o :: l, s'')
  end.

(** A draw is rejected when its value does not fit the range. *)
Definition rejected (min_val max_val : Z) (m : measurement) : Prop :=
  range_size min_val max_val <= int2 m.

(** A scripted bit source: it answers the calls with the entries of a list,
    in order, and raises when the list is used up.  Its circuits refuse a
    negative number of qubits, as the circuit library does. *)
Definition script_exhausted : exn :=
  Exn "IndexError" "list index out of range".

Definition negative_register : exn :=
  Exn "CircuitError" "Register size must be non-negative".

Definition scripted : Backend := {|
  Sim := list (exn + measurement);
  sim_run := fun _ s =>
    match s with
    | [] => (inl script_exhausted, [])
    | o :: s' => (o, s')
    end;
  qc_draw := fun nb_qubits =>
    if nb_qubits <? 0 then Some negative_register else None;
  plt_savefig := fun _ _ _ => None
|}.

(** The scripted source answering the given numbers on [w] bits each. *)
Definition script_of (w : nat) (draws : list Z) : @World scripted :=
  @Build_World scripted
    (map (fun v => @inr exn measurement (bits_of w v)) draws) true.

(** The state after a call to the bit source left the simulator in [s']. *)
Definition after {B : Backend} (w : World) (s' : Sim) : World :=
  {| sim := s'; img_dir := img_dir w |}.

(** The shapes a run of the generator can have: an accepted draw after
    rejected ones, a failure of the bit source after rejected ones, or
    rejected draws up to the end of the budget. *)
Inductive run_shape {B : Backend} (min_val max_val : Z) (fuel : nat)
  (w : World) (r : run Z) : Prop :=
| shape_returned rl v s' :
    Forall (rejected min_val max_val) rl ->
    (length rl < fuel)%nat ->
    transcript (num_qubits min_val max_val) (S (length rl)) (sim w)
    = (map inr rl ++ [inr v], s') ->
    int2 v < range_size min_val max_val ->
    r = {| res := Ret (min_val + int2 v); final := after w s';
           trace := repeat (SimulatorRun (num_qubits min_val max_val))
                           (S (length rl)) |} ->
    run_shape min_val max_val fuel w r
| shape_raised rl e s' :
    Forall (rejected min_val max_val) rl ->
    (length rl < fuel)%nat ->
    transcript (num_qubits min_val max_val) (S (length rl)) (sim w)
    = (map inr rl ++ [inl e], s') ->
    r = {| res := Raise e; final := after w s';
           trace := repeat (SimulatorRun (num_qubits min_val max_val))
                           (S (length rl)) |} ->
    run_shape min_val max_val fuel w r
| shape_cut rl s' :
    Forall (rejected min_val max_val) rl ->
    length rl = fuel ->
    transcript (num_qubits min_val max_val) fuel (sim w) = (map inr rl, s') ->
    r = {| res := OutOfFuel; final := after w s';
           trace := repeat (SimulatorRun (num_qubits min_val max_val))
                           fuel |} ->
    run_shape min_val max_val fuel w r.

(** A failure of the simulator, for the examples. *)
Definition simulator_down : exn := Exn "AerError" "simulation failed".

(** The state once the module is loaded, and what loading it did. *)
Definition ready {B : Backend} (w : World) : World :=
  {| sim := sim w; img_dir := true |}.

Definition init_events {B : Backend} (w : World) : list event :=
  if img_dir w then [] else [MakeDirs].

(** What a rendering that completes leaves in the trace. *)
Definition image_events (a : args) : list event :=
  if arg_image a
  then [Print (MsgLoadingImage (arg_qubits a)); CircuitDraw (arg_qubits a);
        Print (MsgImageSaved (arg_qubits a))]
  else [].


(** [--min 0 --max 10 --image --qubits -1] *)
Definition cli_negative_qubits : args :=
  {| arg_min := 0; arg_max := 10; arg_image := true; arg_qubits := -1;
     arg_benchmark := false; arg_iterations := 1000 |}.

(** A trace made of calls to the bit source only. *)
Definition sampling_only (tr : list event) : bool :=
  forallb is_simulator_run tr.

(** The number of times the image directory was created. *)
Definition makedirs_calls (tr : list event) : nat :=
  length (filter (fun ev => match ev with MakeDirs => true | _ => false end)
            tr).

(** The same command line without [--image]. *)
Definition without_image (a : args) : args :=
  {| arg_min := arg_min a; arg_max := arg_max a; arg_image := false;
     arg_qubits := arg_qubits a; arg_benchmark := arg_benchmark a;
     arg_iterations := arg_iterations a |}.

(** * Properties *)

(** ** Facts on [bit_length] and [int2] *)

Lemma bit_length_nonneg n : 0 <= bit_length n.
Proof. destruct n; simpl; lia. Qed.

Lemma bit_length_pos n : 0 < n -> 0 < bit_length n.
Proof. destruct n; simpl; lia. Qed.

Lemma bit_length_log2 n : 0 < n -> bit_length n = Z.log2 n + 1.
Proof.
  destruct n as [|p|p]; try lia. intros _.
  destruct p; simpl; rewrite ?Pos.add_1_r; reflexivity.
Qed.

(** The value space of [bit_length n] bits strictly exceeds [n] ... *)
Lemma bit_length_upper n : 0 < n -> n < 2 ^ bit_length n.
Proof.
  intros Hn. rewrite bit_length_log2 by assumption.
  replace (Z.log2 n + 1) with (Z.succ (Z.log2 n)) by lia.
  apply Z.log2_spec; assumption.
Qed.

(** ... and one bit less does not exceed it. *)
Lemma bit_length_lower n : 0 < n -> 2 ^ (bit_length n - 1) <= n.
Proof.
  intros Hn. rewrite bit_length_log2 by assumption.
  replace (Z.log2 n + 1 - 1) with (Z.log2 n) by lia.
  apply Z.log2_spec; assumption.
Qed.

Lemma bit_length_double n : 0 < n -> 2 ^ bit_length n <= 2 * n.
Proof.
  intros Hn. pose proof (bit_length_lower n Hn) as Hl.
  pose proof (bit_length_pos n Hn) as Hp.
  replace (bit_length n) with (Z.succ (bit_length n - 1)) at 1 by lia.
  rewrite Z.pow_succ_r by lia. lia.
Qed.

Lemma int2_acc m : forall acc,
  fold_left (fun a b => 2 * a + Z.b2z b) m acc
  = acc * 2 ^ Z.of_nat (length m) + int2 m.
Proof.
  unfold int2. induction m as [|b m IH]; intros acc.
  - simpl. lia.
  - cbn [fold_left length]. rewrite IH, (IH (2 * 0 + Z.b2z b)).
    rewrite Nat2Z.inj_succ, Z.pow_succ_r by lia. ring.
Qed.

Lemma int2_cons b m :
  int2 (b :: m) = Z.b2z b * 2 ^ Z.of_nat (length m) + int2 m.
Proof. unfold int2 at 1. cbn [fold_left]. rewrite int2_acc. ring. Qed.

Lemma int2_range m : 0 <= int2 m < 2 ^ Z.of_nat (length m).
Proof.
  induction m as [|b m IH].
  - cbn. lia.
  - rewrite int2_cons. cbn [length]. rewrite Nat2Z.inj_succ, Z.pow_succ_r by lia.
    destruct b; cbn [Z.b2z]; lia.
Qed.

Lemma int2_nonneg m : 0 <= int2 m.
Proof. apply int2_range. Qed.

Lemma length_bits_of w v : length (bits_of w v) = w.
Proof. induction w; cbn; congruence. Qed.

Lemma int2_bits_of w v : int2 (bits_of w v) = v mod 2 ^ Z.of_nat w.
Proof.
  induction w as [|w IH].
  - cbn. rewrite Z.mod_1_r. reflexivity.
  - cbn [bits_of]. rewrite int2_cons, length_bits_of, IH.
    rewrite Nat2Z.inj_succ, Z.pow_succ_r by lia.
    rewrite Z.testbit_spec' by lia.
    assert (H2 : 0 < 2 ^ Z.of_nat w) by (apply Z.pow_pos_nonneg; lia).
    rewrite (Z.mul_comm 2), Z.rem_mul_r by lia. ring.
Qed.


Section GeneratorFacts.

Context {B : Backend}.
Variables min_val max_val : Z.

Let k := num_qubits min_val max_val.
Let size := range_size min_val max_val.

(** One call of the generator, by the answer of the bit source. *)
Lemma generator_accept fuel w m s' :
  sim_run k (sim w) = (inr m, s') -> int2 m < size ->
  generator_quantum_number (S fuel) min_val max_val w
  = {| res := Ret (min_val + int2 m); final := after w s';
       trace := [SimulatorRun k] |}.
Proof.
  intros Hrun Hlt. cbn [generator_quantum_number]. unfold bind, simulate.
  fold k. rewrite Hrun. cbn.
  destruct (int2 m >=? range_size min_val max_val) eqn:E.
  - apply Z.geb_le in E. unfold size in Hlt. lia.
  - reflexivity.
Qed.

Lemma generator_reject fuel w m s' :
  sim_run k (sim w) = (inr m, s') -> size <= int2 m ->
  generator_quantum_number (S fuel) min_val max_val w
  = let r := generator_quantum_number fuel min_val max_val (after w s') in
    {| res := res r; final := final r;
       trace := SimulatorRun k :: trace r |}.
Proof.
  intros Hrun Hge. cbn [generator_quantum_number]. unfold bind, simulate.
  fold k. rewrite Hrun. cbn.
  destruct (int2 m >=? range_size min_val max_val) eqn:E.
  - reflexivity.
  - rewrite Z.geb_leb in E. apply Z.leb_gt in E. unfold size in Hge. lia.
Qed.

Lemma generator_fail fuel w e s' :
  sim_run k (sim w) = (inl e, s') ->
  generator_quantum_number (S fuel) min_val max_val w
  = {| res := Raise e; final := after w s'; trace := [SimulatorRun k] |}.
Proof.
  intros Hrun. cbn [generator_quantum_number]. unfold bind, simulate.
  fold k. rewrite Hrun. reflexivity.
Qed.

End GeneratorFacts.

Section GeneratorRuns.

Context {B : Backend}.
Variables min_val max_val : Z.

Let k := num_qubits min_val max_val.
Let size := range_size min_val max_val.

Lemma after_after (w : World) s1 s2 : after (after w s1) s2 = after w s2.
Proof. reflexivity. Qed.

Lemma transcript_cons n s o s1 l s2 :
  sim_run k s = (o, s1) -> transcript k n s1 = (l, s2) ->
  transcript k (S n) s = (o :: l, s2).
Proof. intros H1 H2. cbn [transcript]. rewrite H1, H2. reflexivity. Qed.

Lemma transcript_uncons n s o l s2 :
  transcript k (S n) s = (o :: l, s2) ->
  exists s1, sim_run k s = (o, s1) /\ transcript k n s1 = (l, s2).
Proof.
  cbn [transcript]. destruct (sim_run k s) as [o' s1].
  destruct (transcript k n s1) as [l' s2'] eqn:Ht. intros H.
  injection H as Ho Hl Hs. subst. exists s1. split; [reflexivity|exact Ht].
Qed.

(** Rejected draws followed by an accepted one: the accepted one decides. *)
Lemma generator_returns_first_accepted rl :
  forall fuel w v s',
    transcript k (S (length rl)) (sim w) = (map inr rl ++ [inr v], s') ->
    Forall (rejected min_val max_val) rl ->
    int2 v < size ->
    (length rl < fuel)%nat ->
    generator_quantum_number fuel min_val max_val w
    = {| res := Ret (min_val + int2 v); final := after w s';
         trace := repeat (SimulatorRun k) (S (length rl)) |}.
Proof.
  induction rl as [|m rl IH]; intros fuel w v s' Ht Hrej Hv Hfuel;
    (destruct fuel as [|fuel]; [cbn in Hfuel; lia|]);
    apply transcript_uncons in Ht as (s1 & Hrun & Ht).
  - cbn in Ht. injection Ht as <-. now apply generator_accept.
  - inversion Hrej as [|? ? Hm Hrl]; subst.
    rewrite (generator_reject _ _ _ _ _ _ Hrun Hm).
    cbn [length] in Hfuel.
    rewrite (IH fuel (after w s1) v s'); auto; try lia.
Qed.

(** Rejected draws followed by a failure of the bit source. *)
Lemma generator_raises_first_failure rl :
  forall fuel w e s',
    transcript k (S (length rl)) (sim w) = (map inr rl ++ [inl e], s') ->
    Forall (rejected min_val max_val) rl ->
    (length rl < fuel)%nat ->
    generator_quantum_number fuel min_val max_val w
    = {| res := Raise e; final := after w s';
         trace := repeat (SimulatorRun k) (S (length rl)) |}.
Proof.
  induction rl as [|m rl IH]; intros fuel w e s' Ht Hrej Hfuel;
    (destruct fuel as [|fuel]; [cbn in Hfuel; lia|]);
    apply transcript_uncons in Ht as (s1 & Hrun & Ht).
  - cbn in Ht. injection Ht as <-. now apply generator_fail.
  - inversion Hrej as [|? ? Hm Hrl]; subst.
    rewrite (generator_reject _ _ _ _ _ _ Hrun Hm).
    cbn [length] in Hfuel.
    rewrite (IH fuel (after w s1) e s'); auto; try lia.
Qed.

Lemma generator_run_shape fuel :
  forall w,
    run_shape min_val max_val fuel w
      (generator_quantum_number fuel min_val max_val w).
Proof.
  induction fuel as [|fuel IH]; intros w.
  - apply (shape_cut _ _ _ _ _ [] (sim w)); auto. destruct w; reflexivity.
  - destruct (sim_run k (sim w)) as [[e|m] s1] eqn:Hrun.
    + apply (shape_raised _ _ _ _ _ [] e s1); auto; cbn [length]; try lia.
      * now apply (transcript_cons 0 _ _ s1 [] s1).
      * now apply generator_fail.
    + destruct (Z_lt_le_dec (int2 m) size) as [Hlt|Hge].
      * apply (shape_returned _ _ _ _ _ [] m s1); auto; cbn [length]; try lia.
        -- now apply (transcript_cons 0 _ _ s1 [] s1).
        -- now apply generator_accept.
      * rewrite (generator_reject _ _ _ _ _ _ Hrun Hge).
        destruct (IH (after w s1)) as
          [rl v s' Hrej Hlen Ht Hv Hr|rl e s' Hrej Hlen Ht Hr|rl s' Hrej Hlen Ht Hr];
          rewrite Hr; cbn [res final trace].
        -- apply (shape_returned _ _ _ _ _ (m :: rl) v s'); auto;
             cbn [length]; try lia.
           now apply (transcript_cons _ _ _ s1).
        -- apply (shape_raised _ _ _ _ _ (m :: rl) e s'); auto;
             cbn [length]; try lia.
           now apply (transcript_cons _ _ _ s1).
        -- apply (shape_cut _ _ _ _ _ (m :: rl) s'); auto;
             cbn [length]; try lia.
           now apply (transcript_cons _ _ _ s1).
Qed.

End GeneratorRuns.

(** ** The bit-width *)

Lemma num_qubits_bounds min_val max_val :
  min_val <= max_val ->
  2 ^ (num_qubits min_val max_val - 1) <= range_size min_val max_val
  /\ range_size min_val max_val < 2 ^ num_qubits min_val max_val.
Proof.
  intros H. unfold num_qubits.
  assert (0 < range_size min_val max_val) by (unfold range_size; lia).
  split; [now apply bit_length_lower | now apply bit_length_upper].
Qed.

(** The bit-width is the least number of bits whose value space is
    strictly larger than the range. *)
Lemma num_qubits_least_strict min_val max_val k' :
  min_val <= max_val -> 0 <= k' ->
  range_size min_val max_val < 2 ^ k' ->
  num_qubits min_val max_val <= k'.
Proof.
  intros H Hk' Hlt.
  destruct (num_qubits_bounds min_val max_val H) as [Hlo _].
  destruct (Z_le_gt_dec (num_qubits min_val max_val) k') as [|Hgt]; auto.
  exfalso.
  assert (2 ^ k' <= 2 ^ (num_qubits min_val max_val - 1))
    by (apply Z.pow_le_mono_r; lia).
  lia.
Qed.

(** At a range whose size is a power of two the bit-width is one more than
    the exponent. *)
Lemma num_qubits_power_of_two min_val max_val j :
  0 <= j -> range_size min_val max_val = 2 ^ j ->
  num_qubits min_val max_val = j + 1.
Proof.
  intros Hj Hsz. unfold num_qubits. rewrite Hsz.
  assert (0 < 2 ^ j) by (apply Z.pow_pos_nonneg; lia).
  rewrite bit_length_log2 by assumption.
  rewrite Z.log2_pow2 by assumption. reflexivity.
Qed.

(** Away from the powers of two the bit-width is the least number of bits
    whose value space covers the range. *)
Lemma num_qubits_ceil_log2_off_powers min_val max_val :
  min_val <= max_val ->
  (forall j, 0 <= j -> range_size min_val max_val <> 2 ^ j) ->
  2 ^ (num_qubits min_val max_val - 1) < range_size min_val max_val
  /\ range_size min_val max_val <= 2 ^ num_qubits min_val max_val.
Proof.
  intros H Hnp. destruct (num_qubits_bounds min_val max_val H) as [Hlo Hhi].
  assert (Hk : 0 < num_qubits min_val max_val).
  { apply bit_length_pos. unfold range_size. lia. }
  specialize (Hnp (num_qubits min_val max_val - 1) ltac:(lia)). lia.
Qed.

(** A draw is accepted with probability at least one half. *)
Lemma acceptance_at_least_half min_val max_val :
  min_val <= max_val ->
  2 ^ num_qubits min_val max_val <= 2 * range_size min_val max_val.
Proof.
  intros H. apply bit_length_double. unfold range_size. lia.
Qed.

Lemma acceptance_half_at_power_of_two min_val max_val j :
  0 <= j -> range_size min_val max_val = 2 ^ j ->
  2 * range_size min_val max_val = 2 ^ num_qubits min_val max_val.
Proof.
  intros Hj Hsz. rewrite (num_qubits_power_of_two _ _ j Hj Hsz), Hsz.
  rewrite Z.pow_add_r by lia. lia.
Qed.

(** C1: the claim reads that the bit-width [k] is the least with
    [2^k >= range_size], so that [2^(k-1) < range_size <= 2^k], with 0, 1
    and 2 bits for the sizes 1, 2 and 3.  The code takes the bit length of
    [range_size]: for the range [0, 1], of size 2, it uses 2 qubits, where
    1 qubit covers the range, and [2^(k-1) < range_size] fails; the sizes
    1, 2 and 3 get 1, 2 and 2 bits. *)
Theorem C1_bit_width_at_power_of_two :
  range_size 0 1 = 2 /\ num_qubits 0 1 = 2
  /\ ~ (2 ^ (num_qubits 0 1 - 1) < range_size 0 1)
  /\ (range_size 0 1 <= 2 ^ 1 /\ 1 < num_qubits 0 1)
  /\ num_qubits 7 7 = 1 /\ num_qubits 0 2 = 2.
Proof. repeat split; try reflexivity; cbn; lia. Qed.

(** C4: the claim reads that a draw is accepted with probability strictly
    above one half, [2 * range_size > 2^k].  For the range [0, 1] the code
    draws 2 bits and accepts 2 of the 4 values: exactly one half. *)
Theorem C4_acceptance_exactly_half :
  2 * range_size 0 1 = 2 ^ num_qubits 0 1
  /\ ~ (2 * range_size 0 1 > 2 ^ num_qubits 0 1).
Proof. split; cbn; lia. Qed.

(** C6, as the claim states it, fails: for the range [0, 1] the code draws
    [bit_length 2 = 2] bits, as the first half of the claim says, and these
    are not the least number of bits whose value space is at least the size
    of the range, since 1 bit has a value space of 2. *)
Lemma C6_counterexample :
  0 < 1
  /\ num_qubits 0 1 = bit_length (1 - 0 + 1)
  /\ ~ (forall k', 0 <= k' -> 2 ^ k' >= range_size 0 1 ->
                   num_qubits 0 1 <= k').
Proof.
  split; [lia|]. split; [reflexivity|].
  intros H. specialize (H 1 ltac:(lia) ltac:(cbn; lia)). cbn in H. lia.
Qed.

(** C6, as the code has it: for a valid range, every draw of the generator
    asks for [bit_length (max_val - min_val + 1)] bits, and at least one
    draw is made; this width is the least number of bits whose value space
    is strictly larger than the size of the range, so that the value space
    covers the range and one bit less has a value space of at most the
    size. *)
Theorem C6_bit_width_least_above_range
  (B : Backend) (min_val max_val : Z) (fuel : nat) (w : World) :
  min_val < max_val ->
  (exists n,
      trace (generator_quantum_number (S fuel) min_val max_val w)
      = repeat (SimulatorRun (bit_length (max_val - min_val + 1))) (S n))
  /\ max_val - min_val + 1 < 2 ^ bit_length (max_val - min_val + 1)
  /\ (forall k', 0 <= k' ->
                 max_val - min_val + 1 < 2 ^ k' ->
                 bit_length (max_val - min_val + 1) <= k')
  /\ 2 ^ (bit_length (max_val - min_val + 1) - 1) <= max_val - min_val + 1.
Proof.
  intros Hlt. assert (Hle : min_val <= max_val) by lia.
  split; [|split; [|split]].
  - change (bit_length (max_val - min_val + 1))
      with (num_qubits min_val max_val).
    destruct (generator_run_shape min_val max_val (S fuel) w)
      as [rl v s' _ _ _ _ Hr|rl e s' _ _ _ Hr|rl s' _ _ _ Hr];
      rewrite Hr; cbn [trace]; eauto.
  - apply (num_qubits_bounds min_val max_val Hle).
  - intros k' Hk' Hk. now apply (num_qubits_least_strict min_val max_val).
  - apply (num_qubits_bounds min_val max_val Hle).
Qed.

Lemma C6_witness :
  1 < 10
  /\ trace (generator_quantum_number 2 1 10 (script_of 4 [11; 3]))
     = [SimulatorRun 4; SimulatorRun 4]
  /\ 10 - 1 + 1 < 2 ^ bit_length (10 - 1 + 1)
  /\ 2 ^ (bit_length (10 - 1 + 1) - 1) <= 10 - 1 + 1.
Proof.
  split; [lia|]. split; [reflexivity|].
  destruct (C6_bit_width_least_above_range scripted 1 10 1
              (script_of 4 [11; 3]) ltac:(lia))
    as (_ & Hhi & _ & Hlo).
  split; [exact Hhi | exact Hlo].
Defined.

(** ** The sampler *)

Lemma bit_source_calls_repeat k n :
  bit_source_calls (repeat (SimulatorRun k) n) = n.
Proof.
  unfold bit_source_calls. induction n as [|n IH]; cbn; congruence.
Qed.

(** C2: for a valid range, whatever the bit source answers, a value the
    generator returns lies between [min_val] and [max_val]. *)
Theorem C2_returned_value_in_range
  (B : Backend) (fuel : nat) (min_val max_val : Z) (w : World) (n : Z) :
  min_val < max_val ->
  res (generator_quantum_number fuel min_val max_val w) = Ret n ->
  min_val <= n <= max_val.
Proof.
  intros _ Hres.
  destruct (generator_run_shape min_val max_val fuel w)
    as [rl v s' _ _ _ Hv Hr|rl e s' _ _ _ Hr|rl s' _ _ _ Hr];
    rewrite Hr in Hres; cbn in Hres; try discriminate.
  injection Hres as <-. pose proof (int2_nonneg v). unfold range_size in Hv.
  lia.
Qed.

Lemma C2_witness :
  1 < 10
  /\ res (generator_quantum_number 2 1 10 (script_of 4 [11; 3])) = Ret 4
  /\ 1 <= 4 <= 10.
Proof.
  split; [lia|]. split; [reflexivity|].
  apply (C2_returned_value_in_range scripted 2 1 10 (script_of 4 [11; 3]) 4);
    [lia | reflexivity].
Defined.

(** C3: for a valid range, when the bit source answers with draws that do
    not fit the range and then with one that does, the generator asks for a
    fresh draw of the same width after each rejected one, and returns
    [min_val] plus the accepted draw: the rejected ones leave no mark on the
    result.  With the range [1, 10] and the draws 11 then 3 it returns 4. *)
Theorem C3_rejection_then_acceptance :
  (forall (B : Backend) (min_val max_val : Z) (rl : list measurement)
          (v : measurement) (s' : Sim) (fuel : nat) (w : World),
      min_val < max_val ->
      transcript (num_qubits min_val max_val) (S (length rl)) (sim w)
      = (map inr rl ++ [inr v], s') ->
      Forall (rejected min_val max_val) rl ->
      int2 v < range_size min_val max_val ->
      (length rl < fuel)%nat ->
      generator_quantum_number fuel min_val max_val w
      = {| res := Ret (min_val + int2 v); final := after w s';
           trace := repeat (SimulatorRun (num_qubits min_val max_val))
                           (S (length rl)) |})
  /\ generator_quantum_number 2 1 10 (script_of 4 [11; 3])
     = {| res := Ret 4; final := script_of 4 [];
          trace := [SimulatorRun 4; SimulatorRun 4] |}.
Proof.
  split; [|reflexivity].
  intros B min_val max_val rl v s' fuel w _ Ht Hrej Hv Hfuel.
  now apply generator_returns_first_accepted.
Qed.

Lemma C3_witness :
  generator_quantum_number 5 0 5 (script_of 3 [7; 6; 2; 1])
  = {| res := Ret 2; final := script_of 3 [1];
       trace := [SimulatorRun 3; SimulatorRun 3; SimulatorRun 3] |}.
Proof.
  apply (proj1 C3_rejection_then_acceptance scripted 0 5
           [bits_of 3 7; bits_of 3 6] (bits_of 3 2)
           (sim (script_of 3 [1])) 5%nat (script_of 3 [7; 6; 2; 1])).
  - lia.
  - reflexivity.
  - repeat constructor; unfold rejected; cbn; lia.
  - cbn; lia.
  - cbn; lia.
Defined.

(** C7: the generator swallows no error of the bit source.  When a call to
    the bit source fails, after any number of rejected draws, the generator
    raises that very exception and calls the bit source no more; and an
    exception leaves the generator only in that way, so that a new draw is
    asked for after a rejected draw alone, never after an error. *)
Theorem C7_bit_source_errors_propagate
  (B : Backend) (min_val max_val : Z) (fuel : nat) (w : World) (e : exn) :
  (forall (rl : list measurement) (s' : Sim),
      transcript (num_qubits min_val max_val) (S (length rl)) (sim w)
      = (map inr rl ++ [inl e], s') ->
      Forall (rejected min_val max_val) rl ->
      (length rl < fuel)%nat ->
      generator_quantum_number fuel min_val max_val w
      = {| res := Raise e; final := after w s';
           trace := repeat (SimulatorRun (num_qubits min_val max_val))
                           (S (length rl)) |})
  /\ (res (generator_quantum_number fuel min_val max_val w) = Raise e ->
      exists (rl : list measurement) (s' : Sim),
        Forall (rejected min_val max_val) rl
        /\ transcript (num_qubits min_val max_val) (S (length rl)) (sim w)
           = (map inr rl ++ [inl e], s')
        /\ final (generator_quantum_number fuel min_val max_val w)
           = after w s'
        /\ bit_source_calls
             (trace (generator_quantum_number fuel min_val max_val w))
           = S (length rl)).
Proof.
  split.
  - intros rl s' Ht Hrej Hfuel. now apply generator_raises_first_failure.
  - intros Hres.
    destruct (generator_run_shape min_val max_val fuel w)
      as [rl v s' _ _ _ _ Hr|rl e' s' Hrej _ Ht Hr|rl s' _ _ _ Hr];
      rewrite Hr in Hres |- *; cbn in Hres; try discriminate.
    injection Hres as ->. exists rl, s'. cbn [final trace].
    rewrite bit_source_calls_repeat. auto.
Qed.

Lemma C7_witness :
  generator_quantum_number 3 1 10
    (@Build_World scripted
       [inr (bits_of 4 12); inl simulator_down; inr (bits_of 4 3)] true)
  = {| res := Raise simulator_down;
       final := @Build_World scripted [inr (bits_of 4 3)] true;
       trace := [SimulatorRun 4; SimulatorRun 4] |}.
Proof.
  apply (proj1 (C7_bit_source_errors_propagate scripted 1 10 3
                  (@Build_World scripted
                     [inr (bits_of 4 12); inl simulator_down;
                      inr (bits_of 4 3)] true)
                  simulator_down)
               [bits_of 4 12] [inr (bits_of 4 3)]).
  - reflexivity.
  - repeat constructor; unfold rejected; cbn; lia.
  - cbn; lia.
Defined.

(** C8: called with [min_val = max_val], the generator has a range of size
    1 and draws one bit at a time.  A draw of value 0 is accepted and gives
    [min_val]; any other draw is rejected and a fresh bit is drawn.  So a run
    in which the bit source answers with draws other than 0 and then with 0
    makes one call of one qubit per draw and returns [min_val]; and every
    value the generator returns is [min_val], returned by such a run. *)
Theorem C8_degenerate_range
  (B : Backend) (min_val : Z) (fuel : nat) (w : World) :
  range_size min_val min_val = 1
  /\ num_qubits min_val min_val = 1
  /\ (forall (rl : list measurement) (v : measurement) (s' : Sim),
        transcript 1 (S (length rl)) (sim w) = (map inr rl ++ [inr v], s') ->
        Forall (fun r => int2 r <> 0) rl ->
        int2 v = 0 ->
        (length rl < fuel)%nat ->
        generator_quantum_number fuel min_val min_val w
        = {| res := Ret min_val; final := after w s';
             trace := repeat (SimulatorRun 1) (S (length rl)) |})
  /\ (forall n,
        res (generator_quantum_number fuel min_val min_val w) = Ret n ->
        n = min_val
        /\ exists (rl : list measurement) (v : measurement) (s' : Sim),
             Forall (fun r => int2 r <> 0) rl
             /\ int2 v = 0
             /\ transcript 1 (S (length rl)) (sim w)
                = (map inr rl ++ [inr v], s')
             /\ generator_quantum_number fuel min_val min_val w
                = {| res := Ret min_val; final := after w s';
                     trace := repeat (SimulatorRun 1) (S (length rl)) |}).
Proof.
  assert (Hsz : range_size min_val min_val = 1) by (unfold range_size; lia).
  assert (Hk : num_qubits min_val min_val = 1)
    by (unfold num_qubits; rewrite Hsz; reflexivity).
  split; [exact Hsz|]. split; [exact Hk|]. split.
  - intros rl v s' Ht Hrej Hv Hfuel. rewrite <- Hk in Ht.
    rewrite (generator_returns_first_accepted min_val min_val rl fuel w v s');
      auto.
    + rewrite Hk, Hv. do 2 f_equal. lia.
    + apply Forall_forall. intros r Hr. unfold rejected. rewrite Hsz.
      pose proof (int2_nonneg r).
      pose proof (proj1 (Forall_forall _ _) Hrej r Hr). cbn in *. lia.
    + lia.
  - intros n Hres.
    destruct (generator_run_shape min_val min_val fuel w)
      as [rl v s' Hrej _ Ht Hv Hr|rl e s' _ _ _ Hr|rl s' _ _ _ Hr];
      rewrite Hr in Hres; cbn in Hres; try discriminate.
    injection Hres as <-. pose proof (int2_nonneg v).
    assert (Hv0 : int2 v = 0) by lia.
    split; [lia|]. exists rl, v, s'. split; [|split; [exact Hv0|split]].
    + apply Forall_forall. intros r Hin.
      pose proof (proj1 (Forall_forall _ _) Hrej r Hin) as Hge.
      unfold rejected in Hge. lia.
    + rewrite <- Hk. exact Ht.
    + rewrite Hr, Hk, Hv0. do 2 f_equal. lia.
Qed.

Lemma C8_witness :
  generator_quantum_number 3 7 7 (script_of 1 [1; 1; 0; 1])
  = {| res := Ret 7; final := script_of 1 [1];
       trace := [SimulatorRun 1; SimulatorRun 1; SimulatorRun 1] |}.
Proof.
  apply (proj1 (proj2 (proj2
           (C8_degenerate_range scripted 7 3 (script_of 1 [1; 1; 0; 1]))))
           [bits_of 1 1; bits_of 1 1] (bits_of 1 0)
           (sim (script_of 1 [1]))).
  - reflexivity.
  - repeat constructor; cbn; lia.
  - reflexivity.
  - cbn; lia.
Defined.

(** ** The command line *)

Section CommandLine.

Context {B : Backend}.

Lemma module_init_run w :
  module_init w
  = {| res := Ret tt; final := ready w; trace := init_events w |}.
Proof. destruct w as [s []]; reflexivity. Qed.

Lemma draw_and_save_run q w :
  draw_and_save q w
  = match qc_draw q with
    | None =>
        {| res := Ret tt; final := w;
           trace := [Print (MsgLoadingImage q); CircuitDraw q;
                     Print (MsgImageSaved q)] |}
    | Some e =>
        {| res := Raise e; final := w;
           trace := [Print (MsgLoadingImage q); CircuitDraw q] |}
    end.
Proof.
  unfold draw_and_save, bind, print, emit, completes.
  destruct (qc_draw q); reflexivity.
Qed.

Lemma single_number_run fuel a w :
  single_number fuel a w
  = let g := generator_quantum_number fuel (arg_min a) (arg_max a) w in
    let opening := Print (MsgGenerating (arg_min a) (arg_max a)) in
    match res g with
    | Ret n =>
        {| res := Ret tt; final := final g;
           trace := opening :: trace g ++ [Print (MsgGenerated n)] |}
    | Raise e =>
        {| res := Ret tt; final := final g;
           trace := opening :: trace g ++ [Print (MsgGenerationError e)] |}
    | Exit c =>
        {| res := Exit c; final := final g; trace := opening :: trace g |}
    | OutOfFuel =>
        {| res := OutOfFuel; final := final g; trace := opening :: trace g |}
    end.
Proof.
  unfold single_number, try_except, bind, print, emit. cbn.
  destruct (generator_quantum_number fuel (arg_min a) (arg_max a) w)
    as [[n|e|c|] w1 t1]; cbn; reflexivity.
Qed.

(** A run with a valid range whose rendering, when asked for, completes. *)
Lemma program_run_valid fuel a w :
  arg_min a < arg_max a ->
  (arg_image a = true -> qc_draw (arg_qubits a) = None) ->
  program fuel a w
  = let r := (if arg_benchmark a
              then benchmark fuel (arg_min a) (arg_max a) (arg_iterations a)
              else single_number fuel a) (ready w) in
    {| res := res r; final := final r;
       trace := init_events w ++ [Print MsgStarting] ++ image_events a
                ++ trace r |}.
Proof.
  intros Hlt Himg. unfold program, main.
  unfold bind at 1. rewrite module_init_run. cbn [res final trace].
  assert (Hge : (arg_min a >=? arg_max a) = false)
    by (rewrite Z.geb_leb; apply Z.leb_gt; lia).
  rewrite Hge. unfold image_events.
  destruct (arg_image a).
  - unfold bind, print, emit, ret.
    cbn -[draw_and_save benchmark single_number].
    rewrite draw_and_save_run, (Himg eq_refl).
    cbn -[benchmark single_number]. reflexivity.
  - unfold bind, print, emit, ret. cbn -[benchmark single_number].
    reflexivity.
Qed.

(** A run with a valid range whose rendering raises. *)
Lemma program_run_render_failure fuel a w e :
  arg_min a < arg_max a ->
  arg_image a = true -> qc_draw (arg_qubits a) = Some e ->
  program fuel a w
  = {| res := Raise e; final := ready w;
       trace := init_events w
                ++ [Print MsgStarting; Print (MsgLoadingImage (arg_qubits a));
                    CircuitDraw (arg_qubits a)] |}.
Proof.
  intros Hlt Himg Hdraw. unfold program, main.
  unfold bind at 1. rewrite module_init_run. cbn [res final trace].
  assert (Hge : (arg_min a >=? arg_max a) = false)
    by (rewrite Z.geb_leb; apply Z.leb_gt; lia).
  rewrite Hge, Himg.
  unfold bind, print, emit, ret.
  cbn -[draw_and_save benchmark single_number].
  rewrite draw_and_save_run, Hdraw. cbn. reflexivity.
Qed.

End CommandLine.

Section Paths.

Context {B : Backend}.

Lemma benchmark_ran_app t1 t2 :
  benchmark_ran (t1 ++ t2) = benchmark_ran t1 || benchmark_ran t2.
Proof. apply existsb_app. Qed.

Lemma single_ran_app t1 t2 :
  single_ran (t1 ++ t2) = single_ran t1 || single_ran t2.
Proof. apply existsb_app. Qed.

Lemma init_events_quiet w :
  benchmark_ran (init_events w) = false /\ single_ran (init_events w) = false.
Proof. unfold init_events. destruct (img_dir w); split; reflexivity. Qed.



Lemma generator_trace fuel min_val max_val w :
  exists n,
    trace (generator_quantum_number fuel min_val max_val w)
    = repeat (SimulatorRun (num_qubits min_val max_val)) n.
Proof.
  destruct (generator_run_shape min_val max_val fuel w)
    as [rl v s' _ _ _ _ Hr|rl e s' _ _ _ Hr|rl s' _ _ _ Hr];
    rewrite Hr; cbn [trace]; eauto.
Qed.

Lemma generator_never_exits fuel min_val max_val w c :
  res (generator_quantum_number fuel min_val max_val w) <> Exit c.
Proof.
  destruct (generator_run_shape min_val max_val fuel w)
    as [rl v s' _ _ _ _ Hr|rl e s' _ _ _ Hr|rl s' _ _ _ Hr];
    rewrite Hr; cbn [res]; discriminate.
Qed.





End Paths.

(** C5: when [min >= max], the program prints its opening line and the
    error, and exits with status 1.  Nothing was sampled, rendered or
    plotted, and the bit source received no call; besides the two printed
    lines, the only effect is the creation of the image directory when the
    module is loaded, if it did not exist. *)
Theorem C5_invalid_range_exits_before_work
  (B : Backend) (fuel : nat) (a : args) (w : World) :
  arg_min a >= arg_max a ->
  program fuel a w
  = {| res := Exit 1; final := ready w;
       trace := init_events w ++ [Print MsgStarting; Print MsgRangeError] |}
  /\ exit_status (res (program fuel a w)) = Some 1
  /\ bit_source_calls (trace (program fuel a w)) = 0%nat
  /\ filter is_work (trace (program fuel a w)) = []
  /\ sim (final (program fuel a w)) = sim w.
Proof.
  intros Hge.
  assert (Hrun : program fuel a w
                 = {| res := Exit 1; final := ready w;
                      trace := init_events w
                               ++ [Print MsgStarting; Print MsgRangeError] |}).
  { unfold program, main. unfold bind at 1. rewrite module_init_run.
    cbn [res final trace].
    assert (Ht : (arg_min a >=? arg_max a) = true)
      by (apply Z.geb_le; lia).
    rewrite Ht. reflexivity. }
  rewrite Hrun. cbn [res final trace exit_status].
  repeat split; unfold init_events, bit_source_calls;
    destruct (img_dir w); reflexivity.
Qed.

Lemma C5_witness :
  let a := Build_args 5 5 true 4 true 1000 in
  arg_min a >= arg_max a
  /\ exit_status (res (program 3 a (script_of 3 [1; 2]))) = Some 1
  /\ final (program 3 a (script_of 3 [1; 2])) = script_of 3 [1; 2].
Proof.
  cbv zeta. split; [cbn; lia|].
  destruct (C5_invalid_range_exits_before_work scripted 3
              (Build_args 5 5 true 4 true 1000)
              (script_of 3 [1; 2]) ltac:(cbn; lia))
    as (Hrun & Hst & _).
  split; [exact Hst|]. rewrite Hrun. reflexivity.
Defined.




(** C10: in the single-number path an exception raised by the generation
    is caught and printed and the path completes, so that the process ends
    with status 0; whatever the generation does, that path never ends the
    process with another status. *)
Theorem C10_generation_errors_exit_zero
  (B : Backend) (fuel : nat) (a : args) (w : World) :
  (forall e,
      res (generator_quantum_number fuel (arg_min a) (arg_max a) w)
      = Raise e ->
      single_number fuel a w
      = {| res := Ret tt;
           final := final (generator_quantum_number fuel (arg_min a)
                             (arg_max a) w);
           trace := Print (MsgGenerating (arg_min a) (arg_max a))
                    :: trace (generator_quantum_number fuel (arg_min a)
                                (arg_max a) w)
                    ++ [Print (MsgGenerationError e)] |})
  /\ (forall st,
        exit_status (res (single_number fuel a w)) = Some st -> st = 0)
  /\ (arg_min a < arg_max a ->
      arg_benchmark a = false ->
      (arg_image a = true -> qc_draw (arg_qubits a) = None) ->
      (forall st,
          exit_status (res (program fuel a w)) = Some st -> st = 0)
      /\ (forall e,
            res (generator_quantum_number fuel (arg_min a) (arg_max a)
                   (ready w)) = Raise e ->
            exit_status (res (program fuel a w)) = Some 0
            /\ exists t,
                 trace (program fuel a w)
                 = t ++ [Print (MsgGenerationError e)])).
Proof.
  assert (Hst : forall w' st,
             exit_status (res (single_number fuel a w')) = Some st ->
             st = 0).
  { intros w' st. rewrite single_number_run. cbv zeta.
    pose proof (generator_never_exits fuel (arg_min a) (arg_max a) w')
      as Hne.
    destruct (res (generator_quantum_number fuel (arg_min a) (arg_max a) w'))
      as [n|e|c|]; cbn; try congruence.
    exfalso. exact (Hne c eq_refl). }
  split; [|split].
  - intros e He. rewrite single_number_run. cbv zeta. rewrite He.
    reflexivity.
  - apply Hst.
  - intros Hlt Hb Himg. rewrite (program_run_valid fuel a w Hlt Himg).
    cbv zeta. rewrite Hb. cbn [res trace]. split; [apply Hst|].
    intros e He. rewrite single_number_run. cbv zeta. rewrite He.
    cbn [res trace exit_status]. split; [reflexivity|].
    eexists. rewrite !app_comm_cons, !app_assoc. reflexivity.
Qed.

Lemma C10_witness :
  let a := Build_args 1 10 false 4 false 1000 in
  let w := @Build_World scripted
             [inr (bits_of 4 12); inl simulator_down] true in
  res (generator_quantum_number 3 (arg_min a) (arg_max a) w)
  = Raise simulator_down
  /\ single_number 3 a w
     = {| res := Ret tt; final := @Build_World scripted [] true;
          trace := [Print (MsgGenerating 1 10); SimulatorRun 4;
                    SimulatorRun 4;
                    Print (MsgGenerationError simulator_down)] |}.
Proof.
  cbv zeta. split; [reflexivity|].
  rewrite (proj1 (C10_generation_errors_exit_zero scripted 3
                    (Build_args 1 10 false 4 false 1000)
                    (@Build_World scripted
                       [inr (bits_of 4 12); inl simulator_down] true))
                 simulator_down eq_refl).
  reflexivity.
Defined.

(** * Further properties of the code *)

(** ** The generator *)

Lemma int2_inj m1 : forall m2,
  length m1 = length m2 -> int2 m1 = int2 m2 -> m1 = m2.
Proof.
  induction m1 as [|b1 m1 IH]; intros [|b2 m2] Hlen Hval;
    try discriminate; [reflexivity|].
  injection Hlen as Hlen. rewrite !int2_cons, <- Hlen in Hval.
  pose proof (int2_range m1) as H1. pose proof (int2_range m2) as H2.
  rewrite <- Hlen in H2.
  assert (Hb : b1 = b2) by (destruct b1, b2; cbn [Z.b2z] in Hval; auto; lia).
  subst b2. f_equal. apply IH; [assumption | lia].
Qed.

Section GeneratorMore.

Context {B : Backend}.
Variables min_val max_val : Z.

Lemma generator_returns_in_range fuel w n :
  res (generator_quantum_number fuel min_val max_val w) = Ret n ->
  min_val <= n <= max_val.
Proof.
  intros Hres.
  destruct (generator_run_shape min_val max_val fuel w)
    as [rl v s' _ _ _ Hv Hr|rl e s' _ _ _ Hr|rl s' _ _ _ Hr];
    rewrite Hr in Hres; cbn in Hres; try discriminate.
  injection Hres as <-. pose proof (int2_nonneg v). unfold range_size in Hv.
  lia.
Qed.

Lemma sampling_only_repeat k n :
  sampling_only (repeat (SimulatorRun k) n) = true.
Proof. induction n as [|n IH]; cbn; auto. Qed.

Lemma generator_sampling_only fuel w :
  sampling_only (trace (generator_quantum_number fuel min_val max_val w))
  = true.
Proof.
  destruct (generator_trace fuel min_val max_val w) as [n ->].
  apply sampling_only_repeat.
Qed.

Lemma generator_keeps_img_dir fuel w :
  img_dir (final (generator_quantum_number fuel min_val max_val w))
  = img_dir w.
Proof.
  destruct (generator_run_shape min_val max_val fuel w)
    as [rl v s' _ _ _ _ Hr|rl e s' _ _ _ Hr|rl s' _ _ _ Hr];
    rewrite Hr; reflexivity.
Qed.

Lemma generator_ret_calls fuel w n :
  res (generator_quantum_number fuel min_val max_val w) = Ret n ->
  (1 <= bit_source_calls
          (trace (generator_quantum_number fuel min_val max_val w)))%nat.
Proof.
  intros Hres.
  destruct (generator_run_shape min_val max_val fuel w)
    as [rl v s' _ _ _ _ Hr|rl e s' _ _ _ Hr|rl s' _ _ _ Hr];
    rewrite Hr in Hres |- *; cbn in Hres; try discriminate.
  cbn [trace]. rewrite bit_source_calls_repeat. lia.
Qed.

End GeneratorMore.

(** X1: in a range with [min_val <= max_val], every integer [n] of the
    range is the result of exactly one measurement of [num_qubits] bits:
    such a measurement exists, the generator returns [n] as soon as the bit
    source answers with it, and a measurement of that width on which the
    generator returns [n] after a single draw is that one. *)
Theorem X1_every_value_has_one_draw
  (B : Backend) (min_val max_val n : Z) :
  min_val <= n <= max_val ->
  exists m : measurement,
    length m = Z.to_nat (num_qubits min_val max_val)
    /\ int2 m = n - min_val
    /\ (forall fuel w s',
          sim_run (num_qubits min_val max_val) (sim w) = (inr m, s') ->
          generator_quantum_number (S fuel) min_val max_val w
          = {| res := Ret n; final := after w s';
               trace := [SimulatorRun (num_qubits min_val max_val)] |})
    /\ (forall m' fuel w s',
          length m' = Z.to_nat (num_qubits min_val max_val) ->
          sim_run (num_qubits min_val max_val) (sim w) = (inr m', s') ->
          res (generator_quantum_number (S fuel) min_val max_val w) = Ret n ->
          bit_source_calls
            (trace (generator_quantum_number (S fuel) min_val max_val w))
          = 1%nat ->
          m' = m).
Proof.
  intros Hn.
  assert (Hle : min_val <= max_val) by lia.
  destruct (num_qubits_bounds min_val max_val Hle) as [_ Hhi].
  pose proof (bit_length_nonneg (range_size min_val max_val)) as Hk.
  fold (num_qubits min_val max_val) in Hk.
  assert (Hv : 0 <= n - min_val < range_size min_val max_val)
    by (unfold range_size; lia).
  set (m := bits_of (Z.to_nat (num_qubits min_val max_val)) (n - min_val)).
  assert (Hm : int2 m = n - min_val).
  { unfold m. rewrite int2_bits_of, Z2Nat.id by assumption.
    apply Z.mod_small. lia. }
  exists m. split; [apply length_bits_of|]. split; [exact Hm|]. split.
  - intros fuel w s' Hrun.
    rewrite (generator_accept min_val max_val fuel w m s' Hrun) by lia.
    rewrite Hm. do 3 f_equal. lia.
  - intros m' fuel w s' Hlen Hrun Hres Hcalls.
    apply int2_inj; [rewrite Hlen; symmetry; apply length_bits_of|].
    destruct (Z_lt_le_dec (int2 m') (range_size min_val max_val))
      as [Hlt|Hge].
    + rewrite (generator_accept min_val max_val fuel w m' s' Hrun Hlt)
        in Hres.
      cbn in Hres. injection Hres as Hres. lia.
    + rewrite (generator_reject min_val max_val fuel w m' s' Hrun Hge)
        in Hres, Hcalls.
      cbn [res trace] in Hres, Hcalls.
      apply generator_ret_calls in Hres.
      unfold bit_source_calls in Hres, Hcalls. cbn in Hcalls. lia.
Qed.

Lemma X1_witness :
  1 <= 4 <= 10
  /\ exists m : measurement,
       length m = 4%nat /\ int2 m = 3
       /\ res (generator_quantum_number 1 1 10
                 (@Build_World scripted [inr m] true)) = Ret 4.
Proof.
  split; [lia|].
  destruct (X1_every_value_has_one_draw scripted 1 10 4 ltac:(lia))
    as (m & Hlen & Hval & Hret & _).
  exists m. split; [exact Hlen|]. split; [exact Hval|].
  rewrite (Hret 0%nat (@Build_World scripted [inr m] true) [] eq_refl).
  reflexivity.
Defined.

(** X2: called with [max_val < min_val], the generator never returns a
    value: the size of the range is not positive, so whatever the bit source
    measures is rejected and drawn again.  The calls go on until the bit
    source raises, and the generator then raises that exception, having made
    one call per draw. *)
Theorem X2_inverted_range_never_returns
  (B : Backend) (min_val max_val : Z) (fuel : nat) (w : World) :
  max_val < min_val ->
  (forall n,
      res (generator_quantum_number fuel min_val max_val w) <> Ret n)
  /\ (forall (rl : list measurement) (e : exn) (s' : Sim),
        transcript (num_qubits min_val max_val) (S (length rl)) (sim w)
        = (map inr rl ++ [inl e], s') ->
        (length rl < fuel)%nat ->
        generator_quantum_number fuel min_val max_val w
        = {| res := Raise e; final := after w s';
             trace := repeat (SimulatorRun (num_qubits min_val max_val))
                             (S (length rl)) |}).
Proof.
  intros Hinv. split.
  - intros n Hres. apply generator_returns_in_range in Hres. lia.
  - intros rl e s' Ht Hfuel.
    apply generator_raises_first_failure; auto.
    apply Forall_forall. intros m _. unfold rejected, range_size.
    pose proof (int2_nonneg m). lia.
Qed.

Lemma X2_witness :
  3 < 5
  /\ generator_quantum_number 4 5 3 (script_of 1 [0; 1])
     = {| res := Raise script_exhausted; final := script_of 1 [];
          trace := [SimulatorRun 1; SimulatorRun 1; SimulatorRun 1] |}.
Proof.
  split; [lia|].
  apply (proj2 (X2_inverted_range_never_returns scripted 5 3 4
                  (script_of 1 [0; 1]) ltac:(lia))
               [bits_of 1 0; bits_of 1 1] script_exhausted []).
  - reflexivity.
  - cbn; lia.
Defined.

(** X3: a call of the generator does nothing but call the bit source: its
    trace holds simulator runs only, all of the width computed from the
    range, at most one per level of recursion; it prints nothing, leaves
    the image directory as it was and never ends the process. *)
Theorem X3_generator_only_samples
  (B : Backend) (min_val max_val : Z) (fuel : nat) (w : World) :
  Forall (eq (SimulatorRun (num_qubits min_val max_val)))
    (trace (generator_quantum_number fuel min_val max_val w))
  /\ (bit_source_calls
        (trace (generator_quantum_number fuel min_val max_val w))
      <= fuel)%nat
  /\ img_dir (final (generator_quantum_number fuel min_val max_val w))
     = img_dir w
  /\ (forall c,
        res (generator_quantum_number fuel min_val max_val w) <> Exit c).
Proof.
  split; [|split; [|split]].
  - destruct (generator_trace fuel min_val max_val w) as [n ->].
    apply Forall_forall. intros x Hx. apply repeat_spec in Hx. auto.
  - destruct (generator_run_shape min_val max_val fuel w)
      as [rl v s' _ Hl _ _ Hr|rl e s' _ Hl _ Hr|rl s' _ Hl _ Hr];
      rewrite Hr; cbn [trace]; rewrite bit_source_calls_repeat; lia.
  - apply generator_keeps_img_dir.
  - intros c. apply generator_never_exits.
Qed.

(** ** The benchmark *)

Section BenchmarkFacts.

Context {B : Backend}.
Variables (fuel : nat) (min_val max_val : Z).

Lemma bit_source_calls_app t1 t2 :
  bit_source_calls (t1 ++ t2)
  = (bit_source_calls t1 + bit_source_calls t2)%nat.
Proof. unfold bit_source_calls. rewrite filter_app. apply length_app. Qed.

Lemma sampling_only_app t1 t2 :
  sampling_only (t1 ++ t2) = sampling_only t1 && sampling_only t2.
Proof. apply forallb_app. Qed.

Lemma benchmark_loop_sampling_only n :
  forall dataset w,
    sampling_only (trace (benchmark_loop fuel min_val max_val n dataset w))
    = true.
Proof.
  induction n as [|n IH]; intros dataset w; [reflexivity|].
  cbn [benchmark_loop]. unfold bind.
  pose proof (generator_sampling_only min_val max_val fuel w) as Hg.
  destruct (generator_quantum_number fuel min_val max_val w)
    as [[x|e|c|] w1 t1]; cbn [res final trace] in *; auto.
  rewrite sampling_only_app, Hg, IH. reflexivity.
Qed.

Lemma benchmark_loop_never_exits n :
  forall dataset w c,
    res (benchmark_loop fuel min_val max_val n dataset w) <> Exit c.
Proof.
  induction n as [|n IH]; intros dataset w c; [discriminate|].
  cbn [benchmark_loop]. unfold bind.
  pose proof (generator_never_exits fuel min_val max_val w) as Hg.
  destruct (generator_quantum_number fuel min_val max_val w)
    as [[x|e|c'|] w1 t1]; cbn [res final trace] in *;
    try discriminate; [apply IH|]. exfalso. exact (Hg c' eq_refl).
Qed.

Lemma benchmark_loop_keeps_img_dir n :
  forall dataset w,
    img_dir (final (benchmark_loop fuel min_val max_val n dataset w))
    = img_dir w.
Proof.
  induction n as [|n IH]; intros dataset w; [reflexivity|].
  cbn [benchmark_loop]. unfold bind.
  pose proof (generator_keeps_img_dir min_val max_val fuel w) as Hg.
  destruct (generator_quantum_number fuel min_val max_val w)
    as [[x|e|c'|] w1 t1]; cbn [res final trace] in *; auto.
  rewrite IH. exact Hg.
Qed.

(** A loop that completes has appended one sample in the range per
    iteration, each drawn with at least one call to the bit source. *)
Lemma benchmark_loop_dataset n :
  forall dataset w ds,
    res (benchmark_loop fuel min_val max_val n dataset w) = Ret ds ->
    exists samples,
      ds = dataset ++ samples
      /\ length samples = n
      /\ Forall (fun x => min_val <= x <= max_val) samples
      /\ (n <= bit_source_calls
                 (trace (benchmark_loop fuel min_val max_val n dataset w)))%nat.
Proof.
  induction n as [|n IH]; intros dataset w ds.
  - cbn. intros H. injection H as <-. exists []. rewrite app_nil_r.
    repeat split; auto.
  - cbn [benchmark_loop]. unfold bind.
    pose proof (generator_returns_in_range min_val max_val fuel w) as Hin.
    pose proof (generator_ret_calls min_val max_val fuel w) as Hcalls.
    destruct (generator_quantum_number fuel min_val max_val w)
      as [[x|e|c'|] w1 t1]; cbn [res final trace] in *; try discriminate.
    intros Hres. destruct (IH _ _ _ Hres) as (samples & -> & Hlen & Hall & Hn).
    exists (x :: samples). rewrite <- app_assoc. split; [reflexivity|].
    split; [cbn; lia|]. split; [constructor; auto|].
    rewrite bit_source_calls_app. specialize (Hcalls x eq_refl). lia.
Qed.

Lemma benchmark_loop_first_failure n dataset w e :
  res (generator_quantum_number fuel min_val max_val w) = Raise e ->
  benchmark_loop fuel min_val max_val (S n) dataset w
  = {| res := Raise e;
       final := final (generator_quantum_number fuel min_val max_val w);
       trace := trace (generator_quantum_number fuel min_val max_val w) |}.
Proof.
  intros He. cbn [benchmark_loop]. unfold bind. rewrite He. reflexivity.
Qed.

Lemma benchmark_run iterations w :
  benchmark fuel min_val max_val iterations w
  = let l := benchmark_loop fuel min_val max_val (Z.to_nat iterations) [] w in
    let opening := Print (MsgBenchmarking iterations min_val max_val) in
    match res l with
    | Ret ds =>
        let save := HistogramSave ds (range_size min_val max_val) iterations in
        match plt_savefig ds (range_size min_val max_val) iterations with
        | None =>
            {| res := Ret tt; final := final l;
               trace := opening :: trace l
                        ++ [save; Print (MsgHistogramSaved iterations)] |}
        | Some e =>
            {| res := Raise e; final := final l;
               trace := opening :: trace l ++ [save] |}
        end
    | Raise e =>
        {| res := Raise e; final := final l; trace := opening :: trace l |}
    | Exit c =>
        {| res := Exit c; final := final l; trace := opening :: trace l |}
    | OutOfFuel =>
        {| res := OutOfFuel; final := final l; trace := opening :: trace l |}
    end.
Proof.
  unfold benchmark, bind, print, emit, completes, range_size.
  cbn [res final trace].
  destruct (benchmark_loop fuel min_val max_val (Z.to_nat iterations) [] w)
    as [[ds|e|c|] w1 t1]; cbn [res final trace]; try reflexivity.
  destruct (plt_savefig ds (max_val - min_val + 1) iterations);
    cbn; rewrite ?app_nil_r; reflexivity.
Qed.

End BenchmarkFacts.

Lemma sampling_only_In tr ev :
  sampling_only tr = true -> In ev tr -> is_simulator_run ev = true.
Proof. intros H Hin. exact (proj1 (forallb_forall _ _) H ev Hin). Qed.

(** X4: when the benchmark completes, it has plotted one histogram, of
    exactly [iterations] samples that all lie between [min_val] and
    [max_val], over [max_val - min_val + 1] bins, after at least one call to
    the bit source per sample; between its opening line and the plot it did
    nothing but call the bit source, and it printed the closing line last. *)
Theorem X4_benchmark_histogram
  (B : Backend) (fuel : nat) (min_val max_val iterations : Z) (w : World) :
  res (benchmark fuel min_val max_val iterations w) = Ret tt ->
  exists ds t,
    trace (benchmark fuel min_val max_val iterations w)
    = Print (MsgBenchmarking iterations min_val max_val) :: t
      ++ [HistogramSave ds (max_val - min_val + 1) iterations;
          Print (MsgHistogramSaved iterations)]
    /\ sampling_only t = true
    /\ length ds = Z.to_nat iterations
    /\ Forall (fun x => min_val <= x <= max_val) ds
    /\ (Z.to_nat iterations <= bit_source_calls t)%nat.
Proof.
  rewrite benchmark_run. cbv zeta.
  pose proof (benchmark_loop_sampling_only fuel min_val max_val
                (Z.to_nat iterations) [] w) as Hs.
  pose proof (benchmark_loop_dataset fuel min_val max_val
                (Z.to_nat iterations) [] w) as Hd.
  destruct (res (benchmark_loop fuel min_val max_val
                   (Z.to_nat iterations) [] w)) as [ds|e|c|];
    try discriminate.
  destruct (plt_savefig ds (range_size min_val max_val) iterations);
    try discriminate.
  intros _. destruct (Hd ds eq_refl) as (samples & -> & Hlen & Hall & Hn).
  cbn [trace app]. eexists _, _. split; [reflexivity|]. auto.
Qed.

Lemma X4_witness :
  res (benchmark 3 1 10 2 (script_of 4 [11; 3; 9])) = Ret tt
  /\ trace (benchmark 3 1 10 2 (script_of 4 [11; 3; 9]))
     = [Print (MsgBenchmarking 2 1 10); SimulatorRun 4; SimulatorRun 4;
        SimulatorRun 4; HistogramSave [4; 10] 10 2;
        Print (MsgHistogramSaved 2)]
  /\ exists ds t,
       trace (benchmark 3 1 10 2 (script_of 4 [11; 3; 9]))
       = Print (MsgBenchmarking 2 1 10) :: t
         ++ [HistogramSave ds (10 - 1 + 1) 2; Print (MsgHistogramSaved 2)]
       /\ sampling_only t = true
       /\ length ds = Z.to_nat 2
       /\ Forall (fun x => 1 <= x <= 10) ds
       /\ (Z.to_nat 2 <= bit_source_calls t)%nat.
Proof.
  split; [reflexivity|]. split; [reflexivity|].
  apply (X4_benchmark_histogram scripted 3 1 10 2 (script_of 4 [11; 3; 9])).
  reflexivity.
Defined.

(** X5: with [iterations <= 0] the benchmark draws nothing: it never calls
    the bit source, whatever the range, and plots the histogram of an empty
    dataset. *)
Theorem X5_benchmark_without_iterations
  (B : Backend) (fuel : nat) (min_val max_val iterations : Z) (w : World) :
  iterations <= 0 ->
  benchmark fuel min_val max_val iterations w
  = let opening := Print (MsgBenchmarking iterations min_val max_val) in
    let save := HistogramSave [] (max_val - min_val + 1) iterations in
    match plt_savefig [] (max_val - min_val + 1) iterations with
    | None =>
        {| res := Ret tt; final := w;
           trace := [opening; save; Print (MsgHistogramSaved iterations)] |}
    | Some e =>
        {| res := Raise e; final := w; trace := [opening; save] |}
    end.
Proof.
  intros Hit. rewrite benchmark_run.
  replace (Z.to_nat iterations) with 0%nat by lia.
  cbn [benchmark_loop]. unfold ret, range_size. cbv zeta. cbn [res final trace].
  destruct (plt_savefig [] (max_val - min_val + 1) iterations);
    reflexivity.
Qed.

Lemma X5_witness :
  -3 <= 0
  /\ benchmark 0 1 10 (-3) (script_of 4 [5])
     = {| res := Ret tt; final := script_of 4 [5];
          trace := [Print (MsgBenchmarking (-3) 1 10);
                    HistogramSave [] 10 (-3);
                    Print (MsgHistogramSaved (-3))] |}.
Proof.
  split; [lia|].
  rewrite (X5_benchmark_without_iterations scripted 0 1 10 (-3)
             (script_of 4 [5])) by lia.
  reflexivity.
Defined.

(** X6: the benchmark path has no handler: with a valid range and at least
    one iteration, when the first generation raises, the exception ends the
    process with status 1 right after the opening line of the benchmark and
    the calls to the bit source; no histogram is plotted and no further line
    is printed. *)
Theorem X6_benchmark_failure_uncaught
  (B : Backend) (fuel : nat) (a : args) (w : World) (e : exn) :
  arg_min a < arg_max a ->
  arg_benchmark a = true ->
  (arg_image a = true -> qc_draw (arg_qubits a) = None) ->
  0 < arg_iterations a ->
  res (generator_quantum_number fuel (arg_min a) (arg_max a) (ready w))
  = Raise e ->
  res (program fuel a w) = Raise e
  /\ exit_status (res (program fuel a w)) = Some 1
  /\ trace (program fuel a w)
     = init_events w ++ [Print MsgStarting] ++ image_events a
       ++ Print (MsgBenchmarking (arg_iterations a) (arg_min a) (arg_max a))
          :: trace (generator_quantum_number fuel (arg_min a) (arg_max a)
                      (ready w)).
Proof.
  intros Hlt Hb Himg Hit He.
  rewrite (program_run_valid fuel a w Hlt Himg). cbv zeta. rewrite Hb.
  rewrite benchmark_run. cbv zeta.
  destruct (Z.to_nat (arg_iterations a)) as [|n] eqn:En; [lia|].
  rewrite (benchmark_loop_first_failure fuel _ _ n [] (ready w) e He).
  cbn [res final trace exit_status]. auto.
Qed.

Lemma X6_witness :
  let a := Build_args 1 10 false 4 true 5 in
  let w := @Build_World scripted
             [inr (bits_of 4 12); inl simulator_down; inr (bits_of 4 3)]
             true in
  res (program 3 a w) = Raise simulator_down
  /\ exit_status (res (program 3 a w)) = Some 1.
Proof.
  cbv zeta.
  destruct (X6_benchmark_failure_uncaught scripted 3
              (Build_args 1 10 false 4 true 5)
              (@Build_World scripted
                 [inr (bits_of 4 12); inl simulator_down; inr (bits_of 4 3)]
                 true)
              simulator_down)
    as (Hres & Hst & _);
    [cbn; lia | reflexivity | discriminate | cbn; lia | reflexivity |].
  split; [exact Hres | exact Hst].
Defined.

(** X7: the closing line of the benchmark is printed only when the
    benchmark completed, and a histogram is plotted only once every
    iteration has produced its sample: a failure of the bit source at any
    iteration leaves no plot behind. *)
Theorem X7_benchmark_plots_after_all_samples
  (B : Backend) (fuel : nat) (min_val max_val iterations : Z) (w : World) :
  (forall i,
      In (Print (MsgHistogramSaved i))
        (trace (benchmark fuel min_val max_val iterations w)) ->
      res (benchmark fuel min_val max_val iterations w) = Ret tt)
  /\ (forall ds nb i,
        In (HistogramSave ds nb i)
          (trace (benchmark fuel min_val max_val iterations w)) ->
        res (benchmark_loop fuel min_val max_val (Z.to_nat iterations) [] w)
        = Ret ds
        /\ length ds = Z.to_nat iterations).
Proof.
  rewrite benchmark_run. cbv zeta.
  pose proof (benchmark_loop_sampling_only fuel min_val max_val
                (Z.to_nat iterations) [] w) as Hs.
  pose proof (benchmark_loop_dataset fuel min_val max_val
                (Z.to_nat iterations) [] w) as Hd.
  assert (Hno : forall ev,
             is_simulator_run ev = false ->
             ~ In ev (trace (benchmark_loop fuel min_val max_val
                               (Z.to_nat iterations) [] w))).
  { intros ev Hev Hin. apply (sampling_only_In _ _ Hs) in Hin. congruence. }
  destruct (res (benchmark_loop fuel min_val max_val
                   (Z.to_nat iterations) [] w)) as [ds0|e|c|];
    [destruct (plt_savefig ds0 (range_size min_val max_val) iterations)|..];
    cbn [res trace]; split; intros;
    repeat match goal with
           | H : In _ (_ :: _) |- _ => destruct H as [H|H]; try discriminate H
           | H : In _ (_ ++ _) |- _ => apply in_app_or in H; destruct H as [H|H]
           | H : In _ [] |- _ => destruct H
           | H : In ?ev (trace _) |- _ => exfalso; exact (Hno ev eq_refl H)
           end;
    try reflexivity.
  all: injection H as <- _ _; split; [reflexivity|];
    destruct (Hd ds0 eq_refl) as (samples & -> & Hlen & _); exact Hlen.
Qed.

Lemma X7_witness :
  In (Print (MsgHistogramSaved 2))
    (trace (benchmark 3 1 10 2 (script_of 4 [11; 3; 9])))
  /\ res (benchmark 3 1 10 2 (script_of 4 [11; 3; 9])) = Ret tt.
Proof.
  assert (H : In (Print (MsgHistogramSaved 2))
                (trace (benchmark 3 1 10 2 (script_of 4 [11; 3; 9]))))
    by (cbn; repeat (first [left; reflexivity | right])).
  split; [exact H|].
  exact (proj1 (X7_benchmark_plots_after_all_samples scripted 3 1 10 2
                  (script_of 4 [11; 3; 9])) 2 H).
Defined.

(** ** The whole program *)

Section ProgramFacts.

Context {B : Backend}.

Lemma program_run_invalid fuel a w :
  arg_min a >= arg_max a ->
  program fuel a w
  = {| res := Exit 1; final := ready w;
       trace := init_events w ++ [Print MsgStarting; Print MsgRangeError] |}.
Proof.
  intros Hge. unfold program, main. unfold bind at 1.
  rewrite module_init_run. cbn [res final trace].
  assert (Ht : (arg_min a >=? arg_max a) = true) by (apply Z.geb_le; lia).
  rewrite Ht. reflexivity.
Qed.

(** The three ways a run can go. *)
Lemma program_cases fuel a w :
  (arg_min a >= arg_max a
   /\ program fuel a w
      = {| res := Exit 1; final := ready w;
           trace := init_events w
                    ++ [Print MsgStarting; Print MsgRangeError] |})
  \/ (arg_min a < arg_max a
      /\ exists e,
           arg_image a = true /\ qc_draw (arg_qubits a) = Some e
           /\ program fuel a w
              = {| res := Raise e; final := ready w;
                   trace := init_events w
                            ++ [Print MsgStarting;
                                Print (MsgLoadingImage (arg_qubits a));
                                CircuitDraw (arg_qubits a)] |})
  \/ (arg_min a < arg_max a
      /\ (arg_image a = true -> qc_draw (arg_qubits a) = None)
      /\ program fuel a w
         = let r := (if arg_benchmark a
                     then benchmark fuel (arg_min a) (arg_max a)
                            (arg_iterations a)
                     else single_number fuel a) (ready w) in
           {| res := res r; final := final r;
              trace := init_events w ++ [Print MsgStarting]
                       ++ image_events a ++ trace r |}).
Proof.
  destruct (Z_lt_ge_dec (arg_min a) (arg_max a)) as [Hlt|Hge].
  - right. destruct (arg_image a) eqn:Himg.
    + destruct (qc_draw (arg_qubits a)) as [e|] eqn:Hdraw.
      * left. split; [assumption|]. exists e. repeat split.
        now apply program_run_render_failure.
      * right. split; [assumption|]. split; [auto|].
        apply program_run_valid; auto.
    + right. split; [assumption|]. split; [discriminate|].
      apply program_run_valid; auto. intros H. congruence.
  - left. split; [assumption|]. now apply program_run_invalid.
Qed.

Lemma single_number_status fuel a w st :
  exit_status (res (single_number fuel a w)) = Some st -> st = 0.
Proof.
  rewrite single_number_run. cbv zeta.
  pose proof (generator_never_exits fuel (arg_min a) (arg_max a) w) as Hne.
  destruct (res (generator_quantum_number fuel (arg_min a) (arg_max a) w))
    as [n|e|c|]; cbn; try congruence.
  exfalso. exact (Hne c eq_refl).
Qed.

Lemma benchmark_status fuel min_val max_val iterations w st :
  exit_status (res (benchmark fuel min_val max_val iterations w)) = Some st ->
  st = 0 \/ st = 1.
Proof.
  rewrite benchmark_run. cbv zeta.
  pose proof (benchmark_loop_never_exits fuel min_val max_val
                (Z.to_nat iterations) [] w) as Hne.
  destruct (res (benchmark_loop fuel min_val max_val
                   (Z.to_nat iterations) [] w)) as [ds|e|c|].
  - destruct (plt_savefig ds (range_size min_val max_val) iterations);
      cbn; intros H; injection H as <-; auto.
  - cbn. intros H; injection H as <-; auto.
  - exfalso. exact (Hne c eq_refl).
  - cbn. discriminate.
Qed.

Lemma makedirs_calls_app t1 t2 :
  makedirs_calls (t1 ++ t2) = (makedirs_calls t1 + makedirs_calls t2)%nat.
Proof. unfold makedirs_calls. rewrite filter_app. apply length_app. Qed.

Lemma sampling_only_no_makedirs t :
  sampling_only t = true -> makedirs_calls t = 0%nat.
Proof.
  unfold sampling_only, makedirs_calls.
  induction t as [|ev t IH]; [reflexivity|].
  cbn [forallb filter]. intros H. apply andb_prop in H as [Hev Ht].
  destruct ev; try discriminate Hev. auto.
Qed.

Lemma benchmark_makedirs fuel min_val max_val iterations w :
  makedirs_calls (trace (benchmark fuel min_val max_val iterations w))
  = 0%nat
  /\ img_dir (final (benchmark fuel min_val max_val iterations w))
     = img_dir w.
Proof.
  rewrite benchmark_run. cbv zeta.
  pose proof (benchmark_loop_sampling_only fuel min_val max_val
                (Z.to_nat iterations) [] w) as Hs.
  apply sampling_only_no_makedirs in Hs.
  pose proof (benchmark_loop_keeps_img_dir fuel min_val max_val
                (Z.to_nat iterations) [] w) as Hd.
  destruct (res (benchmark_loop fuel min_val max_val
                   (Z.to_nat iterations) [] w)) as [ds|e|c|];
    [destruct (plt_savefig ds (range_size min_val max_val) iterations)|..];
    cbn [final trace]; (split; [|exact Hd]);
    change (makedirs_calls (?x :: ?t)) with (makedirs_calls ([x] ++ t));
    rewrite ?makedirs_calls_app, Hs; reflexivity.
Qed.

Lemma single_number_makedirs fuel a w :
  makedirs_calls (trace (single_number fuel a w)) = 0%nat
  /\ img_dir (final (single_number fuel a w)) = img_dir w.
Proof.
  rewrite single_number_run. cbv zeta.
  pose proof (generator_sampling_only (arg_min a) (arg_max a) fuel w) as Hs.
  apply sampling_only_no_makedirs in Hs.
  pose proof (generator_keeps_img_dir (arg_min a) (arg_max a) fuel w) as Hd.
  destruct (res (generator_quantum_number fuel (arg_min a) (arg_max a) w));
    cbn [final trace]; (split; [|exact Hd]);
    change (makedirs_calls (?x :: ?t)) with (makedirs_calls ([x] ++ t));
    rewrite ?makedirs_calls_app, Hs; reflexivity.
Qed.

End ProgramFacts.

Ltac split_In :=
  repeat match goal with
         | H : In _ (_ :: _) |- _ => destruct H as [H|H]; try discriminate H
         | H : In _ (_ ++ _) |- _ => apply in_app_or in H; destruct H as [H|H]
         | H : In _ [] |- _ => destruct H
         end.

(** X8: whatever the command line and the bit source, a number the program
    prints as generated lies between [--min] and [--max]; such a line is
    printed only for a valid range and without [--benchmark]. *)
Theorem X8_printed_number_in_range
  (B : Backend) (fuel : nat) (a : args) (w : World) (n : Z) :
  In (Print (MsgGenerated n)) (trace (program fuel a w)) ->
  arg_min a <= n <= arg_max a
  /\ arg_min a < arg_max a
  /\ arg_benchmark a = false.
Proof.
  intros Hin.
  assert (Hinit : ~ In (Print (MsgGenerated n)) (init_events w))
    by (unfold init_events; destruct (img_dir w); intros H; split_In).
  assert (Himage : ~ In (Print (MsgGenerated n)) (image_events a))
    by (unfold image_events; destruct (arg_image a); intros H; split_In).
  destruct (program_cases fuel a w)
    as [(_ & Hrun)|[(_ & e & _ & _ & Hrun)|(Hlt & _ & Hrun)]];
    rewrite Hrun in Hin; cbv zeta in Hin; cbn [trace] in Hin;
    split_In; try contradiction.
  destruct (arg_benchmark a).
  - exfalso. rewrite benchmark_run in Hin. cbv zeta in Hin.
    pose proof (benchmark_loop_sampling_only fuel (arg_min a) (arg_max a)
                  (Z.to_nat (arg_iterations a)) [] (ready w)) as Hs.
    destruct (res (benchmark_loop fuel (arg_min a) (arg_max a)
                     (Z.to_nat (arg_iterations a)) [] (ready w)))
      as [ds|e|c|];
      [destruct (plt_savefig ds (range_size (arg_min a) (arg_max a))
                   (arg_iterations a))|..];
      cbn [trace] in Hin; split_In;
      apply (sampling_only_In _ _ Hs) in Hin; discriminate.
  - rewrite single_number_run in Hin. cbv zeta in Hin.
    pose proof (generator_sampling_only (arg_min a) (arg_max a) fuel
                  (ready w)) as Hs.
    pose proof (generator_returns_in_range (arg_min a) (arg_max a) fuel
                  (ready w)) as Hr.
    destruct (res (generator_quantum_number fuel (arg_min a) (arg_max a)
                     (ready w))) as [x|e|c|];
      cbn [trace] in Hin; split_In;
      try (apply (sampling_only_In _ _ Hs) in Hin; discriminate).
    injection Hin as <-. auto.
Qed.

Lemma X8_witness :
  let a := Build_args 1 10 true 4 false 1000 in
  In (Print (MsgGenerated 4)) (trace (program 3 a (script_of 4 [11; 3])))
  /\ arg_min a <= 4 <= arg_max a.
Proof.
  cbv zeta.
  assert (H : In (Print (MsgGenerated 4))
                (trace (program 3 (Build_args 1 10 true 4 false 1000)
                          (script_of 4 [11; 3]))))
    by (cbn; repeat (first [left; reflexivity | right])).
  split; [exact H|].
  exact (proj1 (X8_printed_number_in_range scripted 3
                  (Build_args 1 10 true 4 false 1000)
                  (script_of 4 [11; 3]) 4 H)).
Defined.

(** X9: for a command line that [parse_args] accepted, a run of the
    script from line 93 on that ends does so with status 0 or 1, and the
    status is 1 only for an invalid range or with [--image] or
    [--benchmark]: with neither flag and a valid range it always ends with
    status 0. *)
Theorem X9_exit_status_zero_or_one
  (B : Backend) (fuel : nat) (a : args) (w : World) (st : Z) :
  exit_status (res (program fuel a w)) = Some st ->
  st = 0
  \/ (st = 1
      /\ (arg_min a >= arg_max a
          \/ arg_image a = true \/ arg_benchmark a = true)).
Proof.
  destruct (program_cases fuel a w)
    as [(Hge & Hrun)|[(_ & e & Himg & _ & Hrun)|(_ & _ & Hrun)]];
    rewrite Hrun; cbv zeta; cbn [res exit_status].
  - intros H; injection H as <-. auto.
  - intros H; injection H as <-. auto.
  - destruct (arg_benchmark a).
    + intros H. apply benchmark_status in H as [->| ->]; auto.
    + intros H. apply single_number_status in H. auto.
Qed.

Lemma X9_witness :
  exit_status (res (program 3 (Build_args 1 10 false 4 false 1000)
                      (script_of 4 [11; 3]))) = Some 0
  /\ (0 = 0
      \/ (0 = 1
          /\ (1 >= 10 \/ false = true \/ false = true))).
Proof.
  split; [reflexivity|].
  apply (X9_exit_status_zero_or_one scripted 3
           (Build_args 1 10 false 4 false 1000) (script_of 4 [11; 3]) 0).
  reflexivity.
Defined.

(** X10: with a valid range and [--image], a rendering that raises ends the
    process with status 1 before any draw: the bit source receives no call
    and neither the single generation nor the benchmark starts, whatever
    the other arguments. *)
Theorem X10_render_failure_blocks_sampling
  (B : Backend) (fuel : nat) (a : args) (w : World) (e : exn) :
  arg_min a < arg_max a ->
  arg_image a = true ->
  qc_draw (arg_qubits a) = Some e ->
  res (program fuel a w) = Raise e
  /\ exit_status (res (program fuel a w)) = Some 1
  /\ bit_source_calls (trace (program fuel a w)) = 0%nat
  /\ sim (final (program fuel a w)) = sim w
  /\ benchmark_ran (trace (program fuel a w)) = false
  /\ single_ran (trace (program fuel a w)) = false.
Proof.
  intros Hlt Himg Hdraw.
  rewrite (program_run_render_failure fuel a w e Hlt Himg Hdraw).
  cbn [res final trace exit_status].
  rewrite bit_source_calls_app, benchmark_ran_app, single_ran_app.
  destruct (init_events_quiet w) as [-> ->].
  unfold init_events. destruct (img_dir w); repeat split; reflexivity.
Qed.

Lemma X10_witness :
  arg_min cli_negative_qubits < arg_max cli_negative_qubits
  /\ exit_status (res (program 5 cli_negative_qubits (script_of 4 [3])))
     = Some 1
  /\ bit_source_calls (trace (program 5 cli_negative_qubits (script_of 4 [3])))
     = 0%nat.
Proof.
  split; [cbn; lia|].
  destruct (X10_render_failure_blocks_sampling scripted 5 cli_negative_qubits
              (script_of 4 [3]) negative_register)
    as (_ & Hst & Hcalls & _); [cbn; lia | reflexivity | reflexivity |].
  split; [exact Hst | exact Hcalls].
Defined.

(** X11: the image directory is created when the module is loaded, before
    anything else, exactly when it does not exist yet; nothing creates it
    again, and it exists at the end of every run, whatever the arguments. *)
Theorem X11_image_directory
  (B : Backend) (fuel : nat) (a : args) (w : World) :
  (exists rest,
      trace (program fuel a w) = init_events w ++ Print MsgStarting :: rest
      /\ makedirs_calls rest = 0%nat)
  /\ makedirs_calls (trace (program fuel a w))
     = (if img_dir w then 0%nat else 1%nat)
  /\ img_dir (final (program fuel a w)) = true.
Proof.
  assert (Hinit : makedirs_calls (init_events w)
                  = if img_dir w then 0%nat else 1%nat)
    by (unfold init_events; destruct (img_dir w); reflexivity).
  assert (Himage : makedirs_calls (image_events a) = 0%nat)
    by (unfold image_events; destruct (arg_image a); reflexivity).
  assert (Hrest : exists rest,
             trace (program fuel a w)
             = init_events w ++ Print MsgStarting :: rest
             /\ makedirs_calls rest = 0%nat
             /\ img_dir (final (program fuel a w)) = true).
  { destruct (program_cases fuel a w)
      as [(_ & Hrun)|[(_ & e & _ & _ & Hrun)|(_ & _ & Hrun)]];
      rewrite Hrun; cbv zeta; cbn [final trace].
    - eexists. split; [reflexivity|]. split; reflexivity.
    - eexists. split; [reflexivity|]. split; reflexivity.
    - eexists. split; [reflexivity|]. rewrite makedirs_calls_app, Himage.
      destruct (arg_benchmark a).
      + destruct (benchmark_makedirs fuel (arg_min a) (arg_max a)
                    (arg_iterations a) (ready w)) as [-> ->].
        split; reflexivity.
      + destruct (single_number_makedirs fuel a (ready w)) as [-> ->].
        split; reflexivity. }
  destruct Hrest as (rest & Htr & Hno & Hdir).
  split; [exists rest; auto|]. split; [|exact Hdir].
  rewrite Htr, makedirs_calls_app, Hinit.
  change (makedirs_calls (Print MsgStarting :: rest))
    with (makedirs_calls rest).
  rewrite Hno. lia.
Qed.

(** X12: with a valid range, without [--benchmark] and with a rendering
    that completes when asked for, a generation that returns [n] makes the
    program print the opening line of the generation, call the bit source,
    print [n] as its last line and end with status 0. *)
Theorem X12_single_number_success
  (B : Backend) (fuel : nat) (a : args) (w : World) (n : Z) :
  arg_min a < arg_max a ->
  arg_benchmark a = false ->
  (arg_image a = true -> qc_draw (arg_qubits a) = None) ->
  res (generator_quantum_number fuel (arg_min a) (arg_max a) (ready w))
  = Ret n ->
  exit_status (res (program fuel a w)) = Some 0
  /\ trace (program fuel a w)
     = init_events w ++ [Print MsgStarting] ++ image_events a
       ++ Print (MsgGenerating (arg_min a) (arg_max a))
          :: trace (generator_quantum_number fuel (arg_min a) (arg_max a)
                      (ready w))
          ++ [Print (MsgGenerated n)]
  /\ arg_min a <= n <= arg_max a.
Proof.
  intros Hlt Hb Himg Hn.
  rewrite (program_run_valid fuel a w Hlt Himg). cbv zeta. rewrite Hb.
  rewrite single_number_run. cbv zeta. rewrite Hn.
  cbn [res trace exit_status]. repeat split; try reflexivity;
    apply (generator_returns_in_range _ _ _ _ _ Hn).
Qed.

Lemma X12_witness :
  let a := Build_args 1 10 true 4 false 1000 in
  res (generator_quantum_number 3 (arg_min a) (arg_max a)
         (ready (script_of 4 [11; 3]))) = Ret 4
  /\ trace (program 3 a (script_of 4 [11; 3]))
     = [Print MsgStarting; Print (MsgLoadingImage 4); CircuitDraw 4;
        Print (MsgImageSaved 4); Print (MsgGenerating 1 10);
        SimulatorRun 4; SimulatorRun 4; Print (MsgGenerated 4)].
Proof.
  cbv zeta. split; [reflexivity|].
  destruct (X12_single_number_success scripted 3
              (Build_args 1 10 true 4 false 1000) (script_of 4 [11; 3]) 4)
    as (_ & Htr & _); [cbn; lia | reflexivity | reflexivity | reflexivity |].
  rewrite Htr. reflexivity.
Defined.

(** X13: rendering the circuit does not touch the generation: with a
    valid range and a rendering that completes, the program ends as it
    does without [--image], in the same state of the bit source, and its
    trace is the one without [--image] with the three rendering events
    inserted after the opening line. *)
Theorem X13_rendering_leaves_generation_alone
  (B : Backend) (fuel : nat) (a : args) (w : World) :
  arg_min a < arg_max a ->
  qc_draw (arg_qubits a) = None ->
  exists t,
    trace (program fuel (without_image a) w)
    = init_events w ++ [Print MsgStarting] ++ t
    /\ trace (program fuel a w)
       = init_events w ++ [Print MsgStarting] ++ image_events a ++ t
    /\ res (program fuel a w) = res (program fuel (without_image a) w)
    /\ final (program fuel a w) = final (program fuel (without_image a) w).
Proof.
  intros Hlt Hdraw.
  rewrite (program_run_valid fuel a w Hlt (fun _ => Hdraw)).
  rewrite (program_run_valid fuel (without_image a) w Hlt (fun _ => Hdraw)).
  cbv zeta. cbn [res final trace].
  change (arg_benchmark (without_image a)) with (arg_benchmark a).
  change (image_events (without_image a)) with (@nil event).
  change (single_number fuel (without_image a)) with (single_number fuel a).
  cbn [arg_min arg_max arg_iterations without_image app].
  eexists. repeat split; reflexivity.
Qed.

Lemma X13_witness :
  let a := Build_args 1 10 true 4 false 1000 in
  arg_min a < arg_max a
  /\ res (program 3 a (script_of 4 [11; 3]))
     = res (program 3 (without_image a) (script_of 4 [11; 3])).
Proof.
  cbv zeta. split; [cbn; lia|].
  destruct (X13_rendering_leaves_generation_alone scripted 3
              (Build_args 1 10 true 4 false 1000) (script_of 4 [11; 3]))
    as (t & _ & _ & Hres & _); [cbn; lia | reflexivity |].
  exact Hres.
Defined.
